(** * Shallow embedding of the mock eSpeak JNI bridge
    (src/app/src/main/cpp/espeak_jni.cpp).

    The two file-scope globals [g_initialized] and [g_dataPath] form the
    engine handle; every JNI entry point is a computation in a small
    state monad over that handle, which also collects the lines sent to the
    Android log and whose outcome is either a normal return or a fatal
    abort of the host process.  [nativeInit], [nativePhonemize] and
    [nativeCleanup] below take non-null Java [String] references
    ([jstring]), on which [GetStringUTFChars] yields the characters; the
    entry points under their JNI names further down take references that
    may be [null], and coincide with them on non-null ones. *)

From Stdlib Require Import String List Bool Ascii Lia.
Import ListNotations.
Open Scope string_scope.

Module EspeakJNI.

(** ** Engine handle: the globals of lines 10-11 *)

Record handle := mkHandle {
  g_initialized : bool;
  g_dataPath : string
}.

(** [static bool g_initialized = false; static std::string g_dataPath;]
    (a default-constructed [std::string] is empty). *)
Definition initial_handle : handle :=
  {| g_initialized := false; g_dataPath := "" |}.

(** ** Diagnostics side channel: [LOGI] / [LOGE] *)

Inductive log_level := ANDROID_LOG_INFO | ANDROID_LOG_ERROR.

Record log_line := mkLog { log_prio : log_level; log_tag : string; log_msg : string }.

Definition TAG : string := "EspeakJNI".

(** ** Outcomes seen by the host *)

Inductive outcome (A : Type) :=
| Returned (a : A)
| Fatal.
Arguments Returned {A} a.
Arguments Fatal {A}.

(** A JNI computation: the handle is threaded through, log lines are
    appended in order. *)
Definition M (A : Type) : Type := handle -> outcome A * handle * list log_line.

Definition ret {A} (a : A) : M A := fun h => (Returned a, h, []).

Definition bind {A B} (m : M A) (k : A -> M B) : M B :=
  fun h =>
    match m h with
    | (Returned a, h1, l1) =>
        match k a h1 with (r, h2, l2) => (r, h2, (l1 ++ l2)%list) end
    | (Fatal, h1, l1) => (Fatal, h1, l1)
    end.

Notation "x <- m ;; k" := (bind m (fun x => k))
  (at level 61, m at next level, right associativity).
Notation "m ;;; k" := (bind m (fun _ => k))
  (at level 61, right associativity).

Definition get : M handle := fun h => (Returned h, h, []).
Definition put (h : handle) : M unit := fun _ => (Returned tt, h, []).

(** [__android_log_print] formats the message into a buffer of
    [LOG_BUF_SIZE] bytes, so at most [LOG_BUF_SIZE - 1] bytes of it reach
    the log. *)
Definition LOG_BUF_SIZE : nat := 1024.

Definition __android_log_print (prio : log_level) (tag msg : string) : M unit :=
  fun h => (Returned tt, h, [mkLog prio tag (substring 0 (LOG_BUF_SIZE - 1) msg)]).

Definition LOGI (msg : string) : M unit := __android_log_print ANDROID_LOG_INFO TAG msg.
Definition LOGE (msg : string) : M unit := __android_log_print ANDROID_LOG_ERROR TAG msg.

(** A [jstring] passed from the managed side. *)
Definition jstring := string.

(** [env->GetStringUTFChars(s, nullptr)] followed by the copy the code makes
    of it; [ReleaseStringUTFChars] has no observable effect here. *)
Definition GetStringUTFChars (s : jstring) : M string := ret s.
Definition ReleaseStringUTFChars (s : jstring) (chars : string) : M unit := ret tt.

(** Assignments to the globals. *)
Definition set_dataPath (p : string) : M unit :=
  h <- get ;; put {| g_initialized := g_initialized h; g_dataPath := p |}.
Definition set_initialized (b : bool) : M unit :=
  h <- get ;; put {| g_initialized := b; g_dataPath := g_dataPath h |}.

(** ** nativeInit (lines 13-30) *)
Definition nativeInit (dataPath : jstring) : M bool :=
  path <- GetStringUTFChars dataPath ;;
  set_dataPath path ;;;
  ReleaseStringUTFChars dataPath path ;;;
  h <- get ;;
  LOGI ("Espeak mock init with data path: " ++ g_dataPath h) ;;;
  set_initialized true ;;;
  ret true.

(** Line 57: [std::string result = std::string(inputText);] -- the local
    fallback value, a verbatim copy of the input characters. *)
Definition mock_fallback (inputText : string) : string := inputText.

(** ** nativePhonemize (lines 32-64); [None] is the Java [null]. *)
Definition nativePhonemize (text voice : jstring) : M (option string) :=
  h <- get ;;
  if negb (g_initialized h) then
    LOGE "Espeak not initialized" ;;;
    ret None
  else
    inputText <- GetStringUTFChars text ;;
    voiceId <- GetStringUTFChars voice ;;
    LOGI ("Mock phonemize: text='" ++ inputText ++ "', voice='" ++ voiceId ++ "'") ;;;
    let result := mock_fallback inputText in
    ReleaseStringUTFChars text inputText ;;;
    ReleaseStringUTFChars voice voiceId ;;;
    ret None.

(** ** nativeCleanup (lines 66-74) *)
Definition nativeCleanup : M unit :=
  LOGI "Espeak cleanup" ;;;
  set_initialized false.

(** ** Sequences of calls from the managed side *)

Inductive call :=
| CInit (dataPath : jstring)
| CPhonemize (text voice : jstring)
| CCleanup.

(** The value a call hands back to Java. *)
Inductive jvalue :=
| JBool (b : bool)
| JString (s : option string)
| JVoid.

Definition map_outcome {A B} (f : A -> B) (o : outcome A) : outcome B :=
  match o with Returned a => Returned (f a) | Fatal => Fatal end.

Definition run_call (c : call) (h : handle) : outcome jvalue * handle :=
  match c with
  | CInit p => let '(o, h', _) := nativeInit p h in (map_outcome JBool o, h')
  | CPhonemize t v =>
      let '(o, h', _) := nativePhonemize t v h in (map_outcome JString o, h')
  | CCleanup => let '(o, h', _) := nativeCleanup h in (map_outcome (fun _ => JVoid) o, h')
  end.

(** Runs the calls in order from [h]; a fatal outcome aborts the process. *)
Fixpoint run_calls (cs : list call) (h : handle) : list (outcome jvalue) * handle :=
  match cs with
  | [] => ([], h)
  | c :: cs' =>
      match run_call c h with
      | (Fatal, h') => ([Fatal], h')
      | (Returned v, h') =>
          let '(rs, h'') := run_calls cs' h' in (Returned v :: rs, h'')
      end
  end.

(** ASCII lower-casing, the transformation the comment of line 55 names. *)
Definition ascii_lower (c : ascii) : ascii :=
  let n := nat_of_ascii c in
  if (Nat.leb 65 n && Nat.leb n 90)%bool then ascii_of_nat (n + 32) else c.

Fixpoint to_lower (s : string) : string :=
  match s with
  | EmptyString => EmptyString
  | String c s' => String (ascii_lower c) (to_lower s')
  end.

(** The value each kind of call hands back on a normal return. *)
Definition expected_result (c : call) : outcome jvalue :=
  match c with
  | CInit _ => Returned (JBool true)
  | CPhonemize _ _ => Returned (JString None)
  | CCleanup => Returned JVoid
  end.

Definition is_init (c : call) : bool :=
  match c with CInit _ => true | _ => false end.

Definition is_cleanup (c : call) : bool :=
  match c with CCleanup => true | _ => false end.

Definition is_phonemize (c : call) : bool :=
  match c with CPhonemize _ _ => true | _ => false end.

(** A call from the managed side as a JNI computation, log lines kept. *)
Definition call_M (c : call) : M jvalue :=
  match c with
  | CInit p => b <- nativeInit p ;; ret (JBool b)
  | CPhonemize t v => r <- nativePhonemize t v ;; ret (JString r)
  | CCleanup => nativeCleanup ;;; ret JVoid
  end.

(** The Android log written by a sequence of calls, and the final handle. *)
Fixpoint trace_calls (cs : list call) (h : handle) : list log_line * handle :=
  match cs with
  | [] => ([], h)
  | c :: cs' =>
      match call_M c h with
      | (Fatal, h1, l1) => (l1, h1)
      | (Returned _, h1, l1) =>
          let '(l2, h2) := trace_calls cs' h1 in ((l1 ++ l2)%list, h2)
      end
  end.

Definition is_error (l : log_line) : bool :=
  match log_prio l with ANDROID_LOG_ERROR => true | ANDROID_LOG_INFO => false end.

(** ** The JNI entry points over Java references

    The managed side hands each string over as a Java reference, which may
    be [null] ([None]).  [GetStringUTFChars] on a [null] reference, or a
    [std::string] built from the [NULL] it would yield, aborts the host
    process: none of the three entry points checks its references.  (A
    [NULL] result on memory exhaustion is not modelled.) *)
Definition jref := option string.

Definition abort {A} : M A := fun h => (Fatal, h, []).

Definition GetStringUTFChars_ref (s : jref) : M string :=
  match s with Some t => ret t | None => abort end.
Definition ReleaseStringUTFChars_ref (s : jref) (chars : string) : M unit := ret tt.

Definition Java_com_example_nlp_1final_phonemizer_EspeakPhonemizerNative_nativeInit
    (dataPath : jref) : M bool :=
  path <- GetStringUTFChars_ref dataPath ;;
  set_dataPath path ;;;
  ReleaseStringUTFChars_ref dataPath path ;;;
  h <- get ;;
  LOGI ("Espeak mock init with data path: " ++ g_dataPath h) ;;;
  set_initialized true ;;;
  ret true.

Definition Java_com_example_nlp_1final_phonemizer_EspeakPhonemizerNative_nativePhonemize
    (text voice : jref) : M (option string) :=
  h <- get ;;
  if negb (g_initialized h) then
    LOGE "Espeak not initialized" ;;;
    ret None
  else
    inputText <- GetStringUTFChars_ref text ;;
    voiceId <- GetStringUTFChars_ref voice ;;
    LOGI ("Mock phonemize: text='" ++ inputText ++ "', voice='" ++ voiceId ++ "'") ;;;
    let result := mock_fallback inputText in
    ReleaseStringUTFChars_ref text inputText ;;;
    ReleaseStringUTFChars_ref voice voiceId ;;;
    ret None.

Definition Java_com_example_nlp_1final_phonemizer_EspeakPhonemizerNative_nativeCleanup
    : M unit :=
  nativeCleanup.

(** A call as the JNI layer receives it. *)
Inductive jni_call :=
| JInit (dataPath : jref)
| JPhonemize (text voice : jref)
| JCleanup.

Definition jni_call_M (c : jni_call) : M jvalue :=
  match c with
  | JInit p =>
      b <- Java_com_example_nlp_1final_phonemizer_EspeakPhonemizerNative_nativeInit p ;;
      ret (JBool b)
  | JPhonemize t v =>
      r <- Java_com_example_nlp_1final_phonemizer_EspeakPhonemizerNative_nativePhonemize t v ;;
      ret (JString r)
  | JCleanup =>
      Java_com_example_nlp_1final_phonemizer_EspeakPhonemizerNative_nativeCleanup ;;;
      ret JVoid
  end.

Definition is_null (r : jref) : bool :=
  match r with None => true | Some _ => false end.

(** Whether the call, in handle [h], reads the characters of a [null]
    reference. *)
Definition reads_null (c : jni_call) (h : handle) : bool :=
  match c with
  | JInit p => is_null p
  | JPhonemize t v => g_initialized h && (is_null t || is_null v)
  | JCleanup => false
  end.

Definition jni_expected (c : jni_call) : outcome jvalue :=
  match c with
  | JInit _ => Returned (JBool true)
  | JPhonemize _ _ => Returned (JString None)
  | JCleanup => Returned JVoid
  end.

(** ** Unfolding lemmas for the three entry points *)

Lemma nativeInit_eq : forall p h,
  nativeInit p h =
  (Returned true, {| g_initialized := true; g_dataPath := p |},
   [mkLog ANDROID_LOG_INFO TAG
      (substring 0 (LOG_BUF_SIZE - 1) ("Espeak mock init with data path: " ++ p))]).
Proof. intros p [i d]; reflexivity. Qed.

Lemma nativePhonemize_eq : forall t v h,
  nativePhonemize t v h =
  (Returned None, h,
   if g_initialized h
   then [mkLog ANDROID_LOG_INFO TAG
           (substring 0 (LOG_BUF_SIZE - 1)
              ("Mock phonemize: text='" ++ t ++ "', voice='" ++ v ++ "'"))]
   else [mkLog ANDROID_LOG_ERROR TAG "Espeak not initialized"]).
Proof. intros t v [[|] d]; reflexivity. Qed.

Lemma nativeCleanup_eq : forall h,
  nativeCleanup h =
  (Returned tt, {| g_initialized := false; g_dataPath := g_dataPath h |},
   [mkLog ANDROID_LOG_INFO TAG "Espeak cleanup"]).
Proof. intros [i d]; reflexivity. Qed.

Lemma run_call_eq : forall c h,
  run_call c h =
  (expected_result c,
   match c with
   | CInit p => {| g_initialized := true; g_dataPath := p |}
   | CPhonemize _ _ => h
   | CCleanup => {| g_initialized := false; g_dataPath := g_dataPath h |}
   end).
Proof.
  intros [p|t v|] h; unfold run_call;
    [rewrite nativeInit_eq | rewrite nativePhonemize_eq | rewrite nativeCleanup_eq];
    reflexivity.
Qed.

Lemma run_calls_cons : forall c cs h,
  run_calls (c :: cs) h =
  let '(rs, h') := run_calls cs (snd (run_call c h)) in (expected_result c :: rs, h').
Proof.
  intros c cs h; simpl; rewrite run_call_eq; destruct c; simpl; reflexivity.
Qed.

Lemma run_cleanups : forall n h,
  run_calls (repeat CCleanup (S n)) h =
  (repeat (Returned JVoid) (S n),
   {| g_initialized := false; g_dataPath := g_dataPath h |}).
Proof.
  induction n as [|n IH]; intros h.
  - destruct h; reflexivity.
  - change (repeat CCleanup (S (S n))) with (CCleanup :: repeat CCleanup (S n)).
    rewrite run_calls_cons, run_call_eq; cbn [snd]; rewrite IH; reflexivity.
Qed.

(** ** Claims *)

(** C1: while the readiness flag is false, [nativePhonemize] returns the
    Java [null], leaves the engine handle exactly as it was and only logs
    the "not initialized" error. *)
Theorem phonemize_not_ready_null : forall h text voice,
  g_initialized h = false ->
  nativePhonemize text voice h =
  (Returned None, h, [mkLog ANDROID_LOG_ERROR TAG "Espeak not initialized"]).
Proof.
  intros h text voice H; rewrite nativePhonemize_eq, H; reflexivity.
Qed.

Lemma phonemize_not_ready_null_witness :
  g_initialized (snd (fst (nativeCleanup
     (snd (fst (nativeInit "/data/voices" initial_handle)))))) = false /\
  nativePhonemize "hello" "en-us"
    {| g_initialized := false; g_dataPath := "/data/voices" |} =
  (Returned None, {| g_initialized := false; g_dataPath := "/data/voices" |},
   [mkLog ANDROID_LOG_ERROR TAG "Espeak not initialized"]).
Proof.
  split; [reflexivity|].
  apply phonemize_not_ready_null; reflexivity.
Defined.

(** C2: in every state and for every text and voice, [nativePhonemize]
    returns the Java [null]; it never produces a phoneme string. *)
Theorem phonemize_always_null : forall h text voice,
  fst (fst (nativePhonemize text voice h)) = Returned None.
Proof. intros h text voice; rewrite nativePhonemize_eq; reflexivity. Qed.

(** C3: from any prior handle, [nativeInit dataPath] records [dataPath],
    sets the readiness flag and returns [JNI_TRUE]; the prior handle
    (ready or not) is overwritten. *)
Theorem init_records_path_ready : forall h dataPath,
  fst (fst (nativeInit dataPath h)) = Returned true /\
  snd (fst (nativeInit dataPath h)) =
    {| g_initialized := true; g_dataPath := dataPath |}.
Proof. intros h dataPath; rewrite nativeInit_eq; split; reflexivity. Qed.

(** C4: [nativeCleanup] returns normally and clears the readiness flag in
    every state; any positive number of consecutive cleanups, from any
    state (also the initial one), returns normally each time and leaves
    the flag false. *)
Theorem cleanup_clears_flag : forall h,
  fst (fst (nativeCleanup h)) = Returned tt /\
  g_initialized (snd (fst (nativeCleanup h))) = false /\
  (forall n, fst (run_calls (repeat CCleanup (S n)) h) = repeat (Returned JVoid) (S n) /\
             g_initialized (snd (run_calls (repeat CCleanup (S n)) h)) = false).
Proof.
  intros h; rewrite nativeCleanup_eq; split; [reflexivity|split; [reflexivity|]].
  intros n; rewrite run_cleanups; split; reflexivity.
Qed.

(** C5, refuted: after [nativeInit "/data/voices"] and [nativeCleanup] the
    handle is not back in its initial condition, because the recorded data
    path survives the cleanup. *)
Lemma cleanup_not_full_reset :
  snd (run_calls [CInit "/data/voices"; CCleanup] initial_handle) <> initial_handle.
Proof. vm_compute; discriminate. Qed.

(** C5, as the code does it: [nativeCleanup] resets only the readiness flag
    to its initial value [false]; the data path is kept as it was. *)
Theorem cleanup_resets_flag_only : forall h,
  snd (fst (nativeCleanup h)) =
  {| g_initialized := g_initialized initial_handle; g_dataPath := g_dataPath h |}.
Proof. intros h; rewrite nativeCleanup_eq; reflexivity. Qed.

(** C6: [nativePhonemize] leaves the engine handle unchanged in every state
    and for every text and voice; a ready bridge stays ready. *)
Theorem phonemize_frame : forall h text voice,
  snd (fst (nativePhonemize text voice h)) = h.
Proof. intros h text voice; rewrite nativePhonemize_eq; reflexivity. Qed.

(** C7: the scenario init("/data/voices"), phonemize("hello","en-us"),
    cleanup, phonemize("hello","en-us") from the initial handle returns
    true, null, a normal void return and null. *)
Theorem scenario_init_phonemize_cleanup :
  fst (run_calls [CInit "/data/voices"; CPhonemize "hello" "en-us"; CCleanup;
                  CPhonemize "hello" "en-us"] initial_handle) =
  [Returned (JBool true); Returned (JString None); Returned JVoid;
   Returned (JString None)].
Proof. reflexivity. Qed.

Lemma jni_nonnull_eq : forall h,
  (forall p, Java_com_example_nlp_1final_phonemizer_EspeakPhonemizerNative_nativeInit
               (Some p) h = nativeInit p h) /\
  (forall t v, Java_com_example_nlp_1final_phonemizer_EspeakPhonemizerNative_nativePhonemize
                 (Some t) (Some v) h = nativePhonemize t v h).
Proof. intros [[|] d]; split; reflexivity. Qed.

(** C8, refuted: [nativeInit] on a [null] data-path reference aborts the
    host ([GetStringUTFChars] / [std::string] on [NULL], lines 19-20). *)
Lemma init_null_ref_aborts :
  ~ (forall c h, fst (fst (jni_call_M c h)) <> Fatal).
Proof. intros H; apply (H (JInit None) initial_handle); reflexivity. Qed.

(** C8, as the code does it: a call aborts the host exactly when it reads
    the characters of a [null] reference -- [nativeInit] with a [null] path,
    or [nativePhonemize] with a [null] text or voice while ready; every
    other call, in every state, returns normally: [true] from [nativeInit],
    the Java [null] from [nativePhonemize] (also with [null] arguments
    while not ready), void from [nativeCleanup]. *)
Theorem abort_iff_reads_null : forall c h,
  (fst (fst (jni_call_M c h)) = Fatal <-> reads_null c h = true) /\
  (reads_null c h = false -> fst (fst (jni_call_M c h)) = jni_expected c).
Proof.
  intros [[p|]|[t|] [v|]|] [[|] d]; cbn;
    (split; [split; intros E; first [reflexivity | discriminate E] |]);
    intros E; first [reflexivity | discriminate E].
Qed.

Lemma abort_iff_reads_null_witness :
  reads_null (JPhonemize None None) initial_handle = false /\
  fst (fst (jni_call_M (JPhonemize None None) initial_handle)) = Returned (JString None).
Proof.
  split; [reflexivity|].
  exact (proj2 (abort_iff_reads_null (JPhonemize None None) initial_handle) eq_refl).
Defined.

(** C9, at the failing input: in the ready state with text "Hello", the
    value line 57 computes is "Hello", not the lower-cased "hello" the
    comment of line 55 announces; the call returns the Java [null] and
    leaves the handle unchanged. *)
Theorem fallback_not_lowercased_at_Hello :
  mock_fallback "Hello" = "Hello" /\
  to_lower "Hello" = "hello" /\
  fst (fst (nativePhonemize "Hello" "en-us"
              {| g_initialized := true; g_dataPath := "/data/voices" |})) = Returned None /\
  snd (fst (nativePhonemize "Hello" "en-us"
              {| g_initialized := true; g_dataPath := "/data/voices" |})) =
    {| g_initialized := true; g_dataPath := "/data/voices" |}.
Proof. repeat split; reflexivity. Qed.

(** C10: only [nativeInit] writes the data path: any sequence of
    [nativePhonemize] and [nativeCleanup] calls, from any handle, ends with
    the data path it started with. *)
Theorem dataPath_only_set_by_init : forall cs h,
  (forall c, In c cs -> is_init c = false) ->
  g_dataPath (snd (run_calls cs h)) = g_dataPath h.
Proof.
  induction cs as [|c cs IH]; intros h Hcs; [reflexivity|].
  rewrite run_calls_cons.
  assert (Hc : g_dataPath (snd (run_call c h)) = g_dataPath h).
  { rewrite run_call_eq; destruct c as [p|t v|]; [|reflexivity|reflexivity].
    specialize (Hcs (CInit p) (or_introl eq_refl)); discriminate. }
  specialize (IH (snd (run_call c h))
                 (fun c' Hin => Hcs c' (or_intror Hin))).
  destruct (run_calls cs (snd (run_call c h))) as [rs h'].
  simpl in *; rewrite IH; exact Hc.
Qed.

Lemma dataPath_only_set_by_init_witness :
  (forall c, In c [CPhonemize "hello" "en-us"; CCleanup; CCleanup] -> is_init c = false) /\
  g_dataPath (snd (run_calls [CPhonemize "hello" "en-us"; CCleanup; CCleanup]
                    {| g_initialized := true; g_dataPath := "/data/voices" |})) =
  "/data/voices".
Proof.
  assert (H : forall c, In c [CPhonemize "hello" "en-us"; CCleanup; CCleanup] ->
              is_init c = false).
  { intros c Hin; simpl in Hin;
      destruct Hin as [<-|[<-|[<-|[]]]]; reflexivity. }
  split; [exact H|].
  apply (dataPath_only_set_by_init _
           {| g_initialized := true; g_dataPath := "/data/voices" |} H).
Defined.

(** ** Composition of call sequences *)

Lemma run_calls_app : forall cs1 cs2 h,
  run_calls (cs1 ++ cs2) h =
  (fst (run_calls cs1 h) ++ fst (run_calls cs2 (snd (run_calls cs1 h))),
   snd (run_calls cs2 (snd (run_calls cs1 h))))%list.
Proof.
  induction cs1 as [|c cs1 IH]; intros cs2 h.
  - simpl; destruct (run_calls cs2 h); reflexivity.
  - rewrite <- app_comm_cons, !run_calls_cons, IH.
    destruct (run_calls cs1 (snd (run_call c h))) as [rs h'] eqn:E; simpl.
    destruct (run_calls cs2 h'); reflexivity.
Qed.

Lemma run_calls_no_init : forall cs h,
  (forall c, In c cs -> is_init c = false) ->
  snd (run_calls cs h) =
  {| g_initialized := if existsb is_cleanup cs then false else g_initialized h;
     g_dataPath := g_dataPath h |}.
Proof.
  induction cs as [|c cs IH]; intros h Hcs.
  - destruct h; reflexivity.
  - rewrite run_calls_cons.
    specialize (IH (snd (run_call c h)) (fun c' Hin => Hcs c' (or_intror Hin))).
    destruct (run_calls cs (snd (run_call c h))) as [rs h'] eqn:E; simpl in *.
    rewrite IH, run_call_eq; destruct c as [p|t v|]; simpl.
    + specialize (Hcs (CInit p) (or_introl eq_refl)); discriminate.
    + reflexivity.
    + destruct (existsb is_cleanup cs); reflexivity.
Qed.

(** X2: a sequence with no [nativeInit] call keeps the data path, and
    leaves the readiness flag false if it contains a [nativeCleanup] and as
    it was otherwise; in particular no such sequence makes a bridge ready. *)
Theorem no_init_sequence_handle : forall cs h,
  (forall c, In c cs -> is_init c = false) ->
  snd (run_calls cs h) =
  {| g_initialized := if existsb is_cleanup cs then false else g_initialized h;
     g_dataPath := g_dataPath h |}.
Proof. exact run_calls_no_init. Qed.

Lemma no_init_sequence_handle_witness :
  (forall c, In c [CCleanup; CPhonemize "hello" "en-us"] -> is_init c = false) /\
  snd (run_calls [CCleanup; CPhonemize "hello" "en-us"]
         {| g_initialized := true; g_dataPath := "/data/voices" |}) =
  {| g_initialized := if existsb is_cleanup [CCleanup; CPhonemize "hello" "en-us"]
                      then false else true;
     g_dataPath := "/data/voices" |}.
Proof.
  assert (H : forall c, In c [CCleanup; CPhonemize "hello" "en-us"] -> is_init c = false).
  { intros c Hin; simpl in Hin; destruct Hin as [<-|[<-|[]]]; reflexivity. }
  split; [exact H|].
  apply (no_init_sequence_handle _
           {| g_initialized := true; g_dataPath := "/data/voices" |} H).
Defined.

(** X3: after a [nativeInit p] followed only by phonemize and cleanup calls,
    the data path is [p], whatever came before, and the bridge is ready
    exactly when none of the later calls is a cleanup. *)
Theorem last_init_determines_handle : forall cs1 p cs2 h,
  (forall c, In c cs2 -> is_init c = false) ->
  snd (run_calls (cs1 ++ CInit p :: cs2) h) =
  {| g_initialized := negb (existsb is_cleanup cs2); g_dataPath := p |}.
Proof.
  intros cs1 p cs2 h Hcs.
  rewrite run_calls_app, run_calls_cons, run_call_eq; simpl snd.
  pose proof (run_calls_no_init cs2 {| g_initialized := true; g_dataPath := p |} Hcs) as E.
  destruct (run_calls cs2 _) as [rs h']; simpl in *; rewrite E.
  destruct (existsb is_cleanup cs2); reflexivity.
Qed.

Lemma last_init_determines_handle_witness :
  (forall c, In c [CPhonemize "hello" "en-us"] -> is_init c = false) /\
  snd (run_calls ([CInit "/old"; CCleanup] ++ CInit "/data/voices" ::
                  [CPhonemize "hello" "en-us"]) initial_handle) =
  {| g_initialized := negb (existsb is_cleanup [CPhonemize "hello" "en-us"]);
     g_dataPath := "/data/voices" |}.
Proof.
  assert (H : forall c, In c [CPhonemize "hello" "en-us"] -> is_init c = false).
  { intros c Hin; simpl in Hin; destruct Hin as [<-|[]]; reflexivity. }
  split; [exact H|].
  apply (last_init_determines_handle [CInit "/old"; CCleanup] "/data/voices" _
           initial_handle H).
Defined.

Lemma call_M_eq : forall c h, exists l,
  call_M c h = (expected_result c, snd (run_call c h), [l]) /\
  log_tag l = TAG /\
  (is_error l = true <-> is_phonemize c = true /\ g_initialized h = false).
Proof.
  intros [p|t v|] [[|] d]; eexists;
    (split; [reflexivity|]); (split; [reflexivity|]);
    cbn; split; intros Hx; decompose [and] Hx; try discriminate; auto.
Qed.

Lemma trace_calls_cons : forall c cs h, exists l,
  trace_calls (c :: cs) h =
  (l :: fst (trace_calls cs (snd (run_call c h))),
   snd (trace_calls cs (snd (run_call c h)))) /\
  log_tag l = TAG /\
  (is_error l = true <-> is_phonemize c = true /\ g_initialized h = false).
Proof.
  intros c cs h; destruct (call_M_eq c h) as [l [E [Ht He]]].
  exists l; split; [|split; assumption].
  simpl; rewrite E; destruct c; simpl;
    destruct (trace_calls cs _); reflexivity.
Qed.

(** X4: phonemize calls can be left out of any call sequence without
    changing the handle it ends in. *)
Theorem phonemize_calls_irrelevant : forall cs h,
  snd (run_calls cs h) =
  snd (run_calls (filter (fun c => negb (is_phonemize c)) cs) h).
Proof.
  induction cs as [|c cs IH]; intros h; [reflexivity|].
  rewrite run_calls_cons.
  destruct c as [p|t v|]; simpl filter.
  - rewrite run_calls_cons.
    specialize (IH (snd (run_call (CInit p) h))).
    destruct (run_calls cs _) as [rs h1]; destruct (run_calls (filter _ cs) _) as [rs' h2].
    exact IH.
  - rewrite run_call_eq; simpl snd.
    specialize (IH h).
    destruct (run_calls cs h) as [rs h1]; exact IH.
  - rewrite run_calls_cons.
    specialize (IH (snd (run_call CCleanup h))).
    destruct (run_calls cs _) as [rs h1]; destruct (run_calls (filter _ cs) _) as [rs' h2].
    exact IH.
Qed.

(** X5: every call writes exactly one line to the Android log, always under
    the tag "EspeakJNI", and the logged run ends in the same handle as the
    run that only keeps results. *)
Theorem one_log_line_per_call : forall cs h,
  length (fst (trace_calls cs h)) = length cs /\
  Forall (fun l => log_tag l = TAG) (fst (trace_calls cs h)) /\
  snd (trace_calls cs h) = snd (run_calls cs h).
Proof.
  induction cs as [|c cs IH]; intros h; [repeat split; constructor|].
  destruct (trace_calls_cons c cs h) as [l [E [Ht _]]].
  rewrite E, run_calls_cons; simpl.
  destruct (IH (snd (run_call c h))) as [H1 [H2 H3]].
  destruct (run_calls cs _) as [rs h']; simpl in H3.
  repeat split; [f_equal; exact H1 | constructor; assumption | exact H3].
Qed.

(** X6: from a bridge that is not ready, a sequence with no [nativeInit]
    logs one "not initialized" error per phonemize call and no other
    error. *)
Theorem not_ready_errors_per_phonemize : forall cs h,
  g_initialized h = false ->
  (forall c, In c cs -> is_init c = false) ->
  length (filter is_error (fst (trace_calls cs h))) = length (filter is_phonemize cs).
Proof.
  induction cs as [|c cs IH]; intros h Hh Hcs; [reflexivity|].
  destruct (trace_calls_cons c cs h) as [l [E [_ He]]].
  rewrite E; simpl fst.
  assert (Hh' : g_initialized (snd (run_call c h)) = false).
  { rewrite run_call_eq; destruct c as [p|t v|]; simpl; [|exact Hh|reflexivity].
    specialize (Hcs (CInit p) (or_introl eq_refl)); discriminate. }
  specialize (IH _ Hh' (fun c' Hin => Hcs c' (or_intror Hin))).
  simpl filter; destruct (is_error l) eqn:El; destruct (is_phonemize c) eqn:Ec;
    simpl; try rewrite IH; try reflexivity.
  - destruct (proj1 He eq_refl); congruence.
  - discriminate (proj2 He (conj eq_refl Hh)).
Qed.

Lemma not_ready_errors_per_phonemize_witness :
  g_initialized initial_handle = false /\
  (forall c, In c [CPhonemize "a" "en-us"; CCleanup; CPhonemize "b" "en-us"] ->
             is_init c = false) /\
  length (filter is_error (fst (trace_calls
     [CPhonemize "a" "en-us"; CCleanup; CPhonemize "b" "en-us"] initial_handle))) =
  length (filter is_phonemize [CPhonemize "a" "en-us"; CCleanup; CPhonemize "b" "en-us"]).
Proof.
  assert (H : forall c, In c [CPhonemize "a" "en-us"; CCleanup; CPhonemize "b" "en-us"] ->
              is_init c = false).
  { intros c Hin; simpl in Hin; destruct Hin as [<-|[<-|[<-|[]]]]; reflexivity. }
  split; [reflexivity|split; [exact H|]].
  apply not_ready_errors_per_phonemize; [reflexivity|exact H].
Defined.

(** X7: from a ready bridge, a sequence with no [nativeCleanup] logs no
    error at all. *)
Theorem ready_no_errors : forall cs h,
  g_initialized h = true ->
  (forall c, In c cs -> is_cleanup c = false) ->
  filter is_error (fst (trace_calls cs h)) = [].
Proof.
  induction cs as [|c cs IH]; intros h Hh Hcs; [reflexivity|].
  destruct (trace_calls_cons c cs h) as [l [E [_ He]]].
  rewrite E; simpl fst.
  assert (Hh' : g_initialized (snd (run_call c h)) = true).
  { rewrite run_call_eq; destruct c as [p|t v|]; simpl; [reflexivity|exact Hh|].
    specialize (Hcs CCleanup (or_introl eq_refl)); discriminate. }
  specialize (IH _ Hh' (fun c' Hin => Hcs c' (or_intror Hin))).
  simpl filter; destruct (is_error l) eqn:El; [|exact IH].
  destruct (proj1 He eq_refl); congruence.
Qed.

Lemma ready_no_errors_witness :
  g_initialized {| g_initialized := true; g_dataPath := "/data/voices" |} = true /\
  (forall c, In c [CPhonemize "a" "en-us"; CInit "/x"; CPhonemize "b" "en-us"] ->
             is_cleanup c = false) /\
  filter is_error (fst (trace_calls [CPhonemize "a" "en-us"; CInit "/x";
     CPhonemize "b" "en-us"] {| g_initialized := true; g_dataPath := "/data/voices" |})) = [].
Proof.
  assert (H : forall c, In c [CPhonemize "a" "en-us"; CInit "/x"; CPhonemize "b" "en-us"] ->
              is_cleanup c = false).
  { intros c Hin; simpl in Hin; destruct Hin as [<-|[<-|[<-|[]]]]; reflexivity. }
  split; [reflexivity|split; [exact H|]].
  apply ready_no_errors; [reflexivity|exact H].
Defined.

End EspeakJNI.
